(** * Orbit: two-body gravitation formulas and the orbital-elements record

    A shallow embedding of [orbit.py].  The module holds two physical
    constants, four closed-form formulas and one dataclass.

    The formulas are written once, over an interface [Scalar] that collects
    the arithmetic the Python source asks of its numbers (unary minus, [+],
    [*], [/], numpy's [square], [power] and [linalg.norm]).  Two instances
    are given:
    - [R_Scalar], the real numbers: the exact arithmetic that the formulas
      denote; the contracts of the formulas are proved there;
    - [Float_Scalar], IEEE 754 binary64 as Python and numpy compute it; the
      behaviour at zero separation (infinities and NaN) is proved there.

    A separation vector (a one-dimensional [ndarray]) is a [list] of
    scalars.  A pint [Quantity] is a magnitude together with its unit
    label; the arguments and results of the formulas are magnitudes. *)

From Stdlib Require Import Reals Lra Psatz.
From Stdlib Require Import ZArith List String Bool.
From Stdlib Require Import Floats Uint63.
From Stdlib Require Import Permutation.
Import ListNotations.

Set Implicit Arguments.

(* ===================================================================== *)
(** ** The arithmetic interface *)
(* ===================================================================== *)

Class Scalar (T : Type) : Type := {
  (** [-x] *)
  neg : T -> T;
  (** [x + y] *)
  add : T -> T -> T;
  (** [x * y] *)
  mul : T -> T -> T;
  (** [x / y] *)
  div : T -> T -> T;
  (** [numpy.sqrt] *)
  sqrt : T -> T;
  (** [numpy.power(x, n)] at a non-negative integer exponent *)
  power : T -> nat -> T;
  (** the decimal literal of mantissa [m] and exponent [k], m * 10^k *)
  of_decimal : Z -> Z -> T
}.

Declare Scope num_scope.
Delimit Scope num_scope with num.
Notation "- x" := (neg x) : num_scope.
Notation "x + y" := (add x y) : num_scope.
Notation "x * y" := (mul x y) : num_scope.
Notation "x / y" := (div x y) : num_scope.

(** A pint quantity: a magnitude and the unit it is expressed in. *)
Record Quantity (T : Type) : Type := mkQuantity {
  magnitude : T;
  units : string
}.

Section Formulas.

Context {T : Type} {num : Scalar T}.
Local Open Scope num_scope.

(** An [ndarray] of rank one. *)
Definition ndarray : Type := list T.

(** [numpy.square]: the element multiplied by itself. *)
Definition square (x : T) : T := x * x.

(** Broadcasting of a scalar over an array: [s * r] and [r / s]. *)
Definition scale (s : T) (r : ndarray) : ndarray := map (fun x => s * x) r.

Definition divide (r : ndarray) (s : T) : ndarray := map (fun x => x / s) r.

(** [numpy.dot] of two vectors, accumulated from the left. *)
Definition dot (u v : ndarray) : T :=
  fold_left (fun acc xy => acc + fst xy * snd xy) (combine u v)
            (of_decimal 0 0).

(** [numpy.linalg.norm] of a vector: [sqrt(dot(x, x))]. *)
Definition norm (r : ndarray) : T := sqrt (dot r r).

(** *** Constants *)

Definition GRAVITATIONAL_CONSTANT : Quantity T :=
  mkQuantity (of_decimal 66743 (-15)) "N * m ** 2 / kg ** 2".

Definition EARTH_ACCEL_CONSTANT : Quantity T :=
  mkQuantity (of_decimal 3986018 (-1)) "km ** 3 / s ** 2".

(** *** Global functions *)

Definition calculate_gravitational_force (m_0 m_1 r : T) : T :=
  - magnitude GRAVITATIONAL_CONSTANT * m_0 * m_1 / square r.

Definition calculate_gravitational_force_vector
           (m_0 m_1 : T) (r : ndarray) : ndarray :=
  divide (scale (- magnitude GRAVITATIONAL_CONSTANT * m_0 * m_1) r)
         (power (norm r) 3).

Definition calculate_gravitational_acceleration_vector
           (m_0 m_1 : T) (r : ndarray) : ndarray :=
  divide (scale (- magnitude GRAVITATIONAL_CONSTANT * (m_0 + m_1)) r)
         (power (norm r) 3).

Definition calculate_gravitation_acceleration_earth
           (m_0 m_1 : T) (r : ndarray) : ndarray :=
  divide (scale (- magnitude EARTH_ACCEL_CONSTANT) r) (power (norm r) 3).

End Formulas.

(* ===================================================================== *)
(** ** The two number systems *)
(* ===================================================================== *)

(** Exact arithmetic. *)
#[export] Instance R_Scalar : Scalar R := {|
  neg := Ropp;
  add := Rplus;
  mul := Rmult;
  div := Rdiv;
  sqrt := R_sqrt.sqrt;
  power := pow;
  of_decimal := fun m k => (IZR m * powerRZ 10 k)%R
|}.

(** The Euclidean norm as mathematics writes it: the square root of the
    sum of the squared components. *)
Definition sum_of_squares (r : list R) : R :=
  fold_right (fun x s => x * x + s)%R 0%R r.

Definition euclidean_norm (r : list R) : R :=
  R_sqrt.sqrt (sum_of_squares r).

(** A vector with a component different from zero. *)
Definition nonzero_vector (r : list R) : Prop :=
  Exists (fun x => x <> 0%R) r.

(** IEEE 754 binary64.  An integer below 2^53 in absolute value converts
    exactly. *)
Definition float_of_Z (z : Z) : float :=
  match z with
  | Z0 => 0%float
  | Zpos _ => of_uint63 (Uint63.of_Z z)
  | Zneg p => (- of_uint63 (Uint63.of_Z (Zpos p)))%float
  end.

(** Python reads a decimal literal as the binary64 number nearest to it.
    For the literals of this module the mantissa and the power of ten are
    both exact in binary64, so one correctly rounded operation yields that
    nearest number. *)
Definition float_of_decimal (m k : Z) : float :=
  if (0 <=? k)%Z then float_of_Z (m * 10 ^ k)
  else (float_of_Z m / float_of_Z (10 ^ (- k)))%float.

Section Binary64.

(** [numpy.power] on binary64 calls the C library's [pow], which is not
    one of the basic IEEE operations; it is taken as a parameter. *)
Variable libm_pow : float -> float -> float.

#[local] Instance Float_Scalar : Scalar float := {|
  neg := PrimFloat.opp;
  add := PrimFloat.add;
  mul := PrimFloat.mul;
  div := PrimFloat.div;
  sqrt := PrimFloat.sqrt;
  power := fun x n => libm_pow x (float_of_Z (Z.of_nat n));
  of_decimal := float_of_decimal
|}.

End Binary64.

(** A stand-in for [pow] at the one exponent the module uses, by repeated
    multiplication; exact whenever the cube is representable. *)
Definition cube_pow (x y : float) : float :=
  if (y =? 3)%float then (x * x * x)%float else nan.


(** The same classes on the specification side of the float axioms. *)
Definition SF_zero (f : spec_float) : Prop := exists s, f = S754_zero s.


(* ===================================================================== *)
(** ** The [Orbit] dataclass *)
(* ===================================================================== *)

Section OrbitRecord.

(** The type of the objects stored in the fields. *)
Variable V : Type.

(** Each field holds an object or Python's [None]. *)
Record Orbit : Type := mkOrbit {
  alpha : option V;
  eccen : option V;
  incln : option V;
  omega : option V;
  perig : option V;
  tperi : option V
}.

(** The parameters of the generated [__init__], in declaration order;
    each has the default [None]. *)
Definition Orbit_fields : list string :=
  ["alpha"; "eccen"; "incln"; "omega"; "perig"; "tperi"]%string.

Inductive TypeError : Type :=
| unexpected_keyword (k : string)
| multiple_values (k : string)
| too_many_positional (given : nat).

(** A parameter slot during argument binding: not bound yet, or bound
    to an argument (which may itself be [None]). *)
Definition slots : Type := list (string * option (option V)).

Fixpoint bind_positional (params : list string) (args : list (option V))
  : slots :=
  match params with
  | [] => []
  | p :: ps =>
      match args with
      | [] => (p, None) :: bind_positional ps []
      | a :: rest => (p, Some a) :: bind_positional ps rest
      end
  end.

Fixpoint bind_keyword (k : string) (v : option V) (s : slots)
  : TypeError + slots :=
  match s with
  | [] => inl (unexpected_keyword k)
  | (p, b) :: rest =>
      if String.eqb p k then
        match b with
        | Some _ => inl (multiple_values k)
        | None => inr ((p, Some v) :: rest)
        end
      else
        match bind_keyword k v rest with
        | inl e => inl e
        | inr rest' => inr ((p, b) :: rest')
        end
  end.

Fixpoint bind_keywords (kwargs : list (string * option V)) (s : slots)
  : TypeError + slots :=
  match kwargs with
  | [] => inr s
  | (k, v) :: rest =>
      match bind_keyword k v s with
      | inl e => inl e
      | inr s' => bind_keywords rest s'
      end
  end.

(** The value a parameter ends up with: its argument, else the default. *)
Fixpoint bound (p : string) (s : slots) : option V :=
  match s with
  | [] => None
  | (q, b) :: rest =>
      if String.eqb q p then
        match b with Some v => v | None => None end
      else bound p rest
  end.

(** The call of [Orbit] on positional and keyword arguments: bind the
    arguments as Python does, then store each parameter in its field.
    The class declares no [__post_init__], so nothing is validated. *)
Definition Orbit_init (args : list (option V))
                      (kwargs : list (string * option V))
  : TypeError + Orbit :=
  match bind_keywords kwargs (bind_positional Orbit_fields args) with
  | inl e => inl e
  | inr s =>
      if (List.length Orbit_fields <? List.length args)%nat
      then inl (too_many_positional (List.length args))
      else inr {| alpha := bound "alpha" s;
                  eccen := bound "eccen" s;
                  incln := bound "incln" s;
                  omega := bound "omega" s;
                  perig := bound "perig" s;
                  tperi := bound "tperi" s |}
  end.

End OrbitRecord.

(* ===================================================================== *)
(** ** Further vocabulary for the properties below *)
(* ===================================================================== *)

Section VectorOps.

Context {T : Type} {num : Scalar T}.
Local Open Scope num_scope.

(** The array [-r]: every component negated. *)
Definition negate (r : ndarray) : ndarray := map (fun x => - x) r.

End VectorOps.

(** A binary64 value whose sign bit is [s], or a NaN. *)
Definition SF_sign_or_nan (s : bool) (f : spec_float) : Prop :=
  match f with
  | S754_nan => True
  | S754_zero s' | S754_infinity s' | S754_finite s' _ _ => s' = s
  end.

Section OrbitArguments.

Variable V : Type.

(** The parameters that no argument is bound to yet. *)
Definition unbound (s : slots V) : list string :=
  map fst (filter (fun pb => match snd pb with
                             | None => true
                             | Some _ => false
                             end) s).

(** The value the keyword arguments give to [name], else [default]. *)
Fixpoint lookup (name : string) (kwargs : list (string * option V))
                (default : option V) : option V :=
  match kwargs with
  | [] => default
  | (k, v) :: rest =>
      if String.eqb k name then v else lookup name rest default
  end.

(** What a call passes for the parameter of position [i] and name
    [name]: the positional argument when there is one, else the keyword
    argument, else [None]. *)
Definition argument (i : nat) (name : string) (args : list (option V))
                    (kwargs : list (string * option V)) : option V :=
  match nth_error args i with
  | Some a => a
  | None => lookup name kwargs None
  end.

End OrbitArguments.

(* ===================================================================== *)
(** ** Proof support *)
(* ===================================================================== *)

Ltac real_ops :=
  cbn [neg add mul div sqrt power of_decimal R_Scalar magnitude
       GRAVITATIONAL_CONSTANT EARTH_ACCEL_CONSTANT].

Ltac real_ring := real_ops; cbn [scale divide map]; unfold Rdiv; ring.

Ltac by_component := f_equal; [ | f_equal; [ | f_equal ] ].

(* ===================================================================== *)
(** ** Exact arithmetic: the constants, the norm, scaling *)
(* ===================================================================== *)

Section RealLemmas.

Local Open Scope R_scope.

Lemma G_real_value :
  magnitude (GRAVITATIONAL_CONSTANT (T := R)) = 6.6743e-11.
Proof.
  cbn. change (Pos.to_nat 15) with 15%nat. lra.
Qed.

Lemma MU_real_value :
  magnitude (EARTH_ACCEL_CONSTANT (T := R)) = 3.986018e5.
Proof.
  cbn. change (Pos.to_nat 1) with 1%nat. lra.
Qed.

Lemma G_real_pos : 0 < magnitude (GRAVITATIONAL_CONSTANT (T := R)).
Proof. rewrite G_real_value. lra. Qed.


Lemma dot_fold (r : list R) : forall a : R,
  fold_left (fun acc xy => (acc + fst xy * snd xy)%num) (combine r r) a
  = a + sum_of_squares r.
Proof.
  induction r as [|x r IH]; intros a; simpl.
  - ring.
  - rewrite IH. ring.
Qed.

Lemma dot_self (r : list R) : dot r r = sum_of_squares r.
Proof. unfold dot. rewrite dot_fold. real_ops. simpl. ring. Qed.

(** numpy's norm is the Euclidean norm. *)
Lemma norm_euclidean (r : list R) : norm r = euclidean_norm r.
Proof. unfold norm, euclidean_norm. now rewrite dot_self. Qed.

Lemma euclidean_norm_3 (x y z : R) :
  euclidean_norm [x; y; z] = R_sqrt.sqrt (x * x + y * y + z * z).
Proof. unfold euclidean_norm. f_equal. simpl. ring. Qed.

Lemma sum_of_squares_nonneg (r : list R) : 0 <= sum_of_squares r.
Proof.
  induction r as [|x r IH]; simpl; [lra | nra].
Qed.

Lemma sum_of_squares_pos (r : list R) :
  nonzero_vector r -> 0 < sum_of_squares r.
Proof.
  induction 1 as [x r Hx | x r _ IH]; simpl.
  - pose proof (sum_of_squares_nonneg r). nra.
  - nra.
Qed.

Lemma norm_pos (r : list R) : nonzero_vector r -> 0 < norm r.
Proof.
  intros Hr. rewrite norm_euclidean. apply sqrt_lt_R0.
  now apply sum_of_squares_pos.
Qed.

(** A vector is nonzero exactly when its norm is. *)
Lemma norm_nonzero_iff (r : list R) : nonzero_vector r <-> norm r <> 0.
Proof.
  split.
  - intros Hr. pose proof (norm_pos Hr). lra.
  - intros Hn. unfold nonzero_vector.
    induction r as [|x r IH].
    + exfalso. apply Hn. rewrite norm_euclidean. apply sqrt_0.
    + destruct (Req_dec x 0) as [-> | Hx]; [ | now left ].
      right. apply IH. intros E. apply Hn.
      rewrite norm_euclidean in *. unfold euclidean_norm in *. simpl.
      now replace (0 * 0 + sum_of_squares r) with (sum_of_squares r) by ring.
Qed.

Lemma divide_scale (k p : R) (r : list R) :
  divide (scale k r) p = scale (k / p) r.
Proof.
  unfold divide, scale. rewrite map_map. apply map_ext.
  intros x. real_ops. unfold Rdiv. ring.
Qed.

Lemma sum_of_squares_scale (c : R) (r : list R) :
  sum_of_squares (scale c r) = c ^ 2 * sum_of_squares r.
Proof.
  unfold scale, sum_of_squares.
  induction r as [|x r IH]; simpl in *.
  - ring.
  - rewrite IH. ring.
Qed.

Lemma norm_scale (c : R) (r : list R) :
  norm (scale c r) = Rabs c * norm r.
Proof.
  rewrite !norm_euclidean. unfold euclidean_norm.
  rewrite sum_of_squares_scale, sqrt_mult.
  - f_equal. rewrite <- Rsqr_pow2. apply sqrt_Rsqr_abs.
  - apply pow2_ge_0.
  - apply sum_of_squares_nonneg.
Qed.

(** The shape shared by the three vector formulas. *)
Lemma vector_form (c : R) (r : list R) :
  divide (scale c r) (power (norm r) 3)
  = scale (c / euclidean_norm r ^ 3) r.
Proof. rewrite divide_scale, norm_euclidean. reflexivity. Qed.

End RealLemmas.

(* ===================================================================== *)
(** ** The contracts of the four formulas *)
(* ===================================================================== *)

Section RealContracts.

Local Open Scope R_scope.

(** Name the two literals and forget their digits, so that [ring] and
    [field] treat them as atoms. *)
Ltac constants :=
  pose proof G_real_value as HG; pose proof MU_real_value as HMU;
  pose proof G_real_pos as HGpos; rewrite HG in HGpos;
  set (g := 6.6743e-11) in *; set (mu := 3.986018e5) in *;
  clearbody g mu; rewrite ?HG, ?HMU.












(** What scaling by [m_1] does give: the force on [m_1] from a first body
    of mass [m_0 + m_1]. *)
Lemma acceleration_times_m1 (m_0 m_1 : R) (r : list R) :
  scale m_1 (calculate_gravitational_acceleration_vector m_0 m_1 r)
  = calculate_gravitational_force_vector (m_0 + m_1) m_1 r.
Proof.
  unfold calculate_gravitational_acceleration_vector,
         calculate_gravitational_force_vector.
  rewrite !divide_scale. set (g := magnitude _). set (p := power _ _).
  unfold scale. rewrite map_map. apply map_ext. intros x. real_ring.
Qed.






(** The scenario of the Earth approximation at 7000 km along x: the
    acceleration points back along x with size [mu / 7000^2]. *)
Example earth_acceleration_at_7000_km :
  calculate_gravitation_acceleration_earth 1 1 [7000; 0; 0]
  = [- (3.986018e5 / 7000 ^ 2); 0; 0].
Proof.
  assert (Hn : euclidean_norm [7000; 0; 0] = 7000).
  { rewrite euclidean_norm_3.
    replace (7000 * 7000 + 0 * 0 + 0 * 0) with (7000 * 7000) by ring.
    apply sqrt_square. lra. }
  unfold calculate_gravitation_acceleration_earth.
  rewrite vector_form, Hn. constants.
  cbn [scale map]. by_component; real_ops; field.
Qed.

End RealContracts.

(* ===================================================================== *)
(** ** The Earth approximation does not read its masses *)
(* ===================================================================== *)

(** C6: two calls of [calculate_gravitation_acceleration_earth] on the
    same separation vector give the same result whatever the masses, in
    every number system; so do (1, 1, [7000,0,0]) and (5, 9, [7000,0,0]),
    in exact arithmetic and in binary64. *)
Theorem earth_acceleration_ignores_masses :
  (forall (T : Type) (num : Scalar T) (m_0 m_1 m_0' m_1' : T) (r : list T),
      calculate_gravitation_acceleration_earth m_0 m_1 r
      = calculate_gravitation_acceleration_earth m_0' m_1' r)
  /\ calculate_gravitation_acceleration_earth 1%R 1%R [7000; 0; 0]%R
     = calculate_gravitation_acceleration_earth 5%R 9%R [7000; 0; 0]%R
  /\ (forall libm_pow : float -> float -> float,
        calculate_gravitation_acceleration_earth
          (num := Float_Scalar libm_pow) 1%float 1%float
          [7000; 0; 0]%float
        = calculate_gravitation_acceleration_earth
            (num := Float_Scalar libm_pow) 5%float 9%float
            [7000; 0; 0]%float).
Proof.
  split; [ | split ]; intros; reflexivity.
Qed.

(* ===================================================================== *)
(** ** Binary64: zero separation *)
(* ===================================================================== *)

Section Binary64Facts.

Local Open Scope float_scope.

(** The two literals, as binary64 reads them. *)
Example G_float_value :
  magnitude (GRAVITATIONAL_CONSTANT (num := Float_Scalar cube_pow))
  = 0x1.2589effed8accp-34.
Proof. reflexivity. Qed.

Example MU_float_value :
  magnitude (EARTH_ACCEL_CONSTANT (num := Float_Scalar cube_pow))
  = 0x1.8542733333333p+18.
Proof. reflexivity. Qed.

Lemma eqb_zero_spec (x : float) :
  (x =? 0) = true <-> SF_zero (Prim2SF x).
Proof.
  rewrite FloatAxioms.eqb_spec.
  change (Prim2SF 0) with (S754_zero false).
  destruct (Prim2SF x) as [s | s | | s m e]; split;
    try (intros [s' Hs']; discriminate);
    try (destruct s; discriminate);
    try discriminate.
  - intros _. now exists s.
  - reflexivity.
Qed.




Lemma mul_zero_zero (x y : float) :
  (x =? 0) = true -> (y =? 0) = true -> (x * y =? 0) = true.
Proof.
  rewrite !eqb_zero_spec, FloatAxioms.mul_spec.
  intros [sx ->] [sy ->]. cbn. now eexists.
Qed.

Lemma add_zero_zero (x y : float) :
  (x =? 0) = true -> (y =? 0) = true -> (x + y =? 0) = true.
Proof.
  rewrite !eqb_zero_spec, FloatAxioms.add_spec.
  intros [sx ->] [sy ->]. destruct sx, sy; cbn; now eexists.
Qed.

Lemma sqrt_zero (x : float) :
  (x =? 0) = true -> (PrimFloat.sqrt x =? 0) = true.
Proof.
  rewrite !eqb_zero_spec, FloatAxioms.sqrt_spec.
  intros [sx ->]. cbn. now eexists.
Qed.


(** Rounding to nearest is symmetric: the sign goes through unchanged. *)
Lemma binary_round_aux_opp (s : bool) (m e : Z) (l : location) :
  binary_round_aux prec emax (negb s) m e l
  = SFopp (binary_round_aux prec emax s m e l).
Proof.
  unfold binary_round_aux.
  destruct (shr_fexp prec emax m e l) as [mrs' e'].
  destruct (shr_fexp prec emax _ e' loc_Exact) as [mrs'' e''].
  destruct (shr_m mrs''); try reflexivity.
  now destruct (Z.leb e'' (Z.sub emax prec)).
Qed.

Lemma SF64mul_opp_l (x y : spec_float) :
  SF64mul (SFopp x) y = SFopp (SF64mul x y).
Proof.
  unfold SF64mul.
  destruct x as [sx | sx | | sx mx ex], y as [sy | sy | | sy my ey]; cbn;
    try reflexivity;
    try (now destruct sx, sy).
  rewrite <- binary_round_aux_opp. now destruct sx, sy.
Qed.

Lemma SF64div_opp_l (x y : spec_float) :
  SF64div (SFopp x) y = SFopp (SF64div x y).
Proof.
  unfold SF64div.
  destruct x as [sx | sx | | sx mx ex], y as [sy | sy | | sy my ey]; cbn;
    try reflexivity;
    try (now destruct sx, sy).
  destruct (SFdiv_core_binary prec emax (Z.pos mx) ex (Z.pos my) ey)
    as [[mz ez] lz].
  rewrite <- binary_round_aux_opp. now destruct sx, sy.
Qed.

Lemma opp_mul (x y : float) : - x * y = - (x * y).
Proof.
  apply Prim2SF_inj.
  now rewrite FloatAxioms.mul_spec, !FloatAxioms.opp_spec,
              SF64mul_opp_l, FloatAxioms.mul_spec.
Qed.

Lemma opp_div (x y : float) : - x / y = - (x / y).
Proof.
  apply Prim2SF_inj.
  now rewrite FloatAxioms.div_spec, !FloatAxioms.opp_spec,
              SF64div_opp_l, FloatAxioms.div_spec.
Qed.

Variable libm_pow : float -> float -> float.

(** In binary64 too the leading minus of the source can be read as
    negating the whole quotient: the scalar force is the correctly rounded
    evaluation, left to right, of [G * m_0 * m_1 / (r * r)], negated. *)
Lemma gravitational_force_binary64 (m_0 m_1 r : float) :
  calculate_gravitational_force (num := Float_Scalar libm_pow) m_0 m_1 r
  = - (0x1.2589effed8accp-34 * m_0 * m_1 / (r * r)).
Proof.
  unfold calculate_gravitational_force, square.
  cbn [neg mul div Float_Scalar].
  change (magnitude GRAVITATIONAL_CONSTANT) with 0x1.2589effed8accp-34.
  now rewrite !opp_mul, opp_div.
Qed.

Lemma gravitational_force_vector_binary64 (m_0 m_1 : float)
      (r : list float) :
  calculate_gravitational_force_vector
    (num := Float_Scalar libm_pow) m_0 m_1 r
  = map (fun x => - (0x1.2589effed8accp-34 * m_0 * m_1 * x
                     / libm_pow (norm (num := Float_Scalar libm_pow) r) 3))
        r.
Proof.
  unfold calculate_gravitational_force_vector, divide, scale.
  rewrite map_map. apply map_ext. intros x.
  cbn [neg mul div power Float_Scalar].
  change (magnitude GRAVITATIONAL_CONSTANT) with 0x1.2589effed8accp-34.
  change (float_of_Z (Z.of_nat 3)) with 3.
  now rewrite !opp_mul, opp_div.
Qed.

(** C99 Annex F and IEEE 754: [pow] of a zero at an odd positive integer
    exponent is a zero. *)
Hypothesis libm_pow_zero :
  forall x, (x =? 0) = true -> (libm_pow x 3 =? 0) = true.



(** The norm of a vector of zeros is zero. *)
Lemma norm_zero_vector (r : list float) :
  Forall (fun x => (x =? 0) = true) r ->
  (norm (num := Float_Scalar libm_pow) r =? 0) = true.
Proof.
  intros Hr. unfold norm, dot. cbn [sqrt Float_Scalar]. apply sqrt_zero.
  assert (H0 : (of_decimal (Scalar := Float_Scalar libm_pow) 0 0 =? 0) = true)
    by reflexivity.
  revert H0. generalize (of_decimal (Scalar := Float_Scalar libm_pow) 0 0).
  induction Hr as [ | x r Hx _ IH ]; intros a Ha; cbn.
  - exact Ha.
  - apply IH, add_zero_zero; [ exact Ha | now apply mul_zero_zero ].
Qed.


End Binary64Facts.

Section Binary64Examples.

Local Open Scope float_scope.


(** What the four formulas return at zero separation, evaluated. *)
Example zero_separation_values :
  calculate_gravitational_force (num := Float_Scalar cube_pow) 5 9 0
  = neg_infinity
  /\ calculate_gravitational_force (num := Float_Scalar cube_pow) 0 9 0
     = nan
  /\ calculate_gravitational_force_vector
       (num := Float_Scalar cube_pow) 5 9 [0; 0; 0]
     = [nan; nan; nan]
  /\ calculate_gravitation_acceleration_earth
       (num := Float_Scalar cube_pow) 5 9 [0; 0; 0]
     = [nan; nan; nan].
Proof. repeat split; vm_compute; reflexivity. Qed.

(** The Earth scenario in binary64: about -8.13e-3 km/s^2 along x. *)
Example earth_acceleration_at_7000_km_float :
  nth 0 (calculate_gravitation_acceleration_earth
           (num := Float_Scalar cube_pow) 1 9 [7000; 0; 0]) nan
  = - 0x1.8542733333333p+18 * 7000 / 343000000000.
Proof. reflexivity. Qed.

End Binary64Examples.

(* ===================================================================== *)
(** ** The [Orbit] dataclass: construction *)
(* ===================================================================== *)

(** C10: constructing an [Orbit] with only [eccen] supplied succeeds and
    leaves the other five fields at [None]; the supplied object is stored
    as it is, whatever it is: nothing checks it against [0, 1). *)
Theorem Orbit_eccen_only (V : Type) (e : option V) :
  Orbit_init [] [("eccen"%string, e)]
  = inr {| alpha := None; eccen := e; incln := None;
           omega := None; perig := None; tperi := None |}.
Proof. reflexivity. Qed.

(** An eccentricity outside [0, 1) is stored like any other. *)
Example Orbit_eccen_out_of_range :
  Orbit_init [] [("eccen"%string, Some 2.5%R)]
  = inr {| alpha := None; eccen := Some 2.5%R; incln := None;
           omega := None; perig := None; tperi := None |}
  /\ Orbit_init [] [("eccen"%string, Some (-1)%R)]
     = inr {| alpha := None; eccen := Some (-1)%R; incln := None;
              omega := None; perig := None; tperi := None |}.
Proof. split; reflexivity. Qed.

(** No argument at all leaves the six fields unset. *)
Example Orbit_no_argument (V : Type) :
  Orbit_init (V := V) [] []
  = inr {| alpha := None; eccen := None; incln := None;
           omega := None; perig := None; tperi := None |}.
Proof. reflexivity. Qed.

(** Positional arguments fill the fields in declaration order. *)
Example Orbit_positional (V : Type) (a e : option V) :
  Orbit_init [a; e] []
  = inr {| alpha := a; eccen := e; incln := None;
           omega := None; perig := None; tperi := None |}.
Proof. reflexivity. Qed.

(** The calls Python rejects with a [TypeError]. *)
Example Orbit_rejected (V : Type) (a e : option V) :
  Orbit_init [] [("period"%string, e)] = inl (unexpected_keyword "period")
  /\ Orbit_init [a; e] [("eccen"%string, e)] = inl (multiple_values "eccen")
  /\ Orbit_init [a; a; a; a; a; a; a] [] = inl (too_many_positional 7).
Proof. repeat split; reflexivity. Qed.

(** Any single field can be the one supplied. *)
Lemma Orbit_single_keyword (V : Type) (f : string) (v : option V) :
  In f Orbit_fields ->
  exists o : Orbit V, Orbit_init [] [(f, v)] = inr o.
Proof.
  unfold Orbit_fields. intros Hf.
  repeat (destruct Hf as [<- | Hf]; [ eexists; reflexivity | ]).
  contradiction.
Qed.

(* ===================================================================== *)
(** ** Further properties of the formulas, in exact arithmetic *)
(* ===================================================================== *)

Section RealProperties.

Local Open Scope R_scope.

Lemma sum_of_squares_negate (r : list R) :
  sum_of_squares (negate r) = sum_of_squares r.
Proof.
  unfold negate, sum_of_squares.
  induction r as [|x r IH]; simpl in *; [ reflexivity | rewrite IH; ring ].
Qed.

Lemma norm_negate (r : list R) : norm (negate r) = norm r.
Proof.
  rewrite !norm_euclidean. unfold euclidean_norm.
  now rewrite sum_of_squares_negate.
Qed.

Lemma scale_negate (c : R) (r : list R) :
  scale c (negate r) = negate (scale c r).
Proof.
  unfold scale, negate. rewrite !map_map. apply map_ext.
  intros x. real_ops. ring.
Qed.

Lemma scale_scale (a b : R) (r : list R) :
  scale a (scale b r) = scale (a * b) r.
Proof.
  unfold scale. rewrite map_map. apply map_ext. intros x. real_ops. ring.
Qed.

Lemma scale_ext (a b : R) (r : list R) : a = b -> scale a r = scale b r.
Proof. now intros ->. Qed.

Lemma norm_sqr_sum (r : list R) : norm r ^ 2 = sum_of_squares r.
Proof.
  rewrite norm_euclidean. unfold euclidean_norm.
  rewrite <- Rsqr_pow2. apply Rsqr_sqrt, sum_of_squares_nonneg.
Qed.

(** The dot product of a multiple of [r] with [r]. *)
Lemma dot_scale_fold (c : R) (r : list R) : forall a : R,
  fold_left (fun acc xy => (acc + fst xy * snd xy)%num)
            (combine (scale c r) r) a
  = a + c * sum_of_squares r.
Proof.
  unfold scale.
  induction r as [|x r IH]; intros a; simpl.
  - ring.
  - rewrite IH. ring.
Qed.

Lemma dot_scale_self (c : R) (r : list R) :
  dot (scale c r) r = c * sum_of_squares r.
Proof. unfold dot. rewrite dot_scale_fold. real_ops. simpl. ring. Qed.

(** X1: the two forces and the acceleration do not change when the two
    masses are exchanged. *)
Theorem formulas_symmetric_in_masses (m_0 m_1 r : R) (v : list R) :
  calculate_gravitational_force m_0 m_1 r
  = calculate_gravitational_force m_1 m_0 r
  /\ calculate_gravitational_force_vector m_0 m_1 v
     = calculate_gravitational_force_vector m_1 m_0 v
  /\ calculate_gravitational_acceleration_vector m_0 m_1 v
     = calculate_gravitational_acceleration_vector m_1 m_0 v.
Proof.
  unfold calculate_gravitational_force, calculate_gravitational_force_vector,
         calculate_gravitational_acceleration_vector.
  set (g := magnitude _). repeat split.
  - real_ring.
  - f_equal. apply scale_ext. real_ring.
  - f_equal. apply scale_ext. real_ring.
Qed.

(** X2: reversing the separation vector reverses the three vector
    results, component by component. *)
Theorem vector_formulas_odd (m_0 m_1 : R) (v : list R) :
  calculate_gravitational_force_vector m_0 m_1 (negate v)
  = negate (calculate_gravitational_force_vector m_0 m_1 v)
  /\ calculate_gravitational_acceleration_vector m_0 m_1 (negate v)
     = negate (calculate_gravitational_acceleration_vector m_0 m_1 v)
  /\ calculate_gravitation_acceleration_earth m_0 m_1 (negate v)
     = negate (calculate_gravitation_acceleration_earth m_0 m_1 v).
Proof.
  unfold calculate_gravitational_force_vector,
         calculate_gravitational_acceleration_vector,
         calculate_gravitation_acceleration_earth.
  rewrite !divide_scale, !norm_negate.
  repeat split; apply scale_negate.
Qed.

(** X3: the scalar force is homogeneous of degree -2 in the separation:
    stretching a nonzero separation by a nonzero factor [c] divides the
    force by [c^2]. *)
Theorem force_inverse_square_scaling (m_0 m_1 c r : R) :
  c <> 0 -> r <> 0 ->
  calculate_gravitational_force m_0 m_1 (c * r)
  = calculate_gravitational_force m_0 m_1 r / c ^ 2.
Proof.
  intros Hc Hr. unfold calculate_gravitational_force, square.
  set (g := magnitude _). real_ops. field. split; assumption.
Qed.

Lemma force_inverse_square_scaling_witness :
  2 <> 0 /\ 3 <> 0
  /\ calculate_gravitational_force 5 9 (2 * 3)
     = calculate_gravitational_force 5 9 3 / 2 ^ 2.
Proof.
  assert (Hc : 2 <> 0) by lra.
  assert (Hr : 3 <> 0) by lra.
  exact (conj Hc (conj Hr (@force_inverse_square_scaling 5 9 2 3 Hc Hr))).
Defined.

(** X4: stretching a nonzero separation vector by a positive factor [c]
    divides each of the three vector results by [c^2] and keeps its
    direction. *)
Theorem vector_formulas_inverse_square_scaling
        (m_0 m_1 c : R) (v : list R) :
  0 < c -> nonzero_vector v ->
  calculate_gravitational_force_vector m_0 m_1 (scale c v)
  = scale (/ c ^ 2) (calculate_gravitational_force_vector m_0 m_1 v)
  /\ calculate_gravitational_acceleration_vector m_0 m_1 (scale c v)
     = scale (/ c ^ 2)
             (calculate_gravitational_acceleration_vector m_0 m_1 v)
  /\ calculate_gravitation_acceleration_earth m_0 m_1 (scale c v)
     = scale (/ c ^ 2) (calculate_gravitation_acceleration_earth m_0 m_1 v).
Proof.
  intros Hc Hv. pose proof (norm_pos Hv) as Hn.
  assert (shape : forall k : R,
             divide (scale k (scale c v)) (power (norm (scale c v)) 3)
             = scale (/ c ^ 2) (divide (scale k v) (power (norm v) 3))).
  { intros k. rewrite !divide_scale, norm_scale, !scale_scale.
    rewrite (Rabs_pos_eq c) by lra. apply scale_ext.
    set (n := norm v) in *. real_ops. field. lra. }
  unfold calculate_gravitational_force_vector,
         calculate_gravitational_acceleration_vector,
         calculate_gravitation_acceleration_earth.
  repeat split; apply shape.
Qed.

Lemma vector_formulas_inverse_square_scaling_witness :
  0 < 2 /\ nonzero_vector [3; 4; 12]
  /\ calculate_gravitational_force_vector 5 9 (scale 2 [3; 4; 12])
     = scale (/ 2 ^ 2) (calculate_gravitational_force_vector 5 9 [3; 4; 12])
  /\ calculate_gravitational_acceleration_vector 5 9 (scale 2 [3; 4; 12])
     = scale (/ 2 ^ 2)
             (calculate_gravitational_acceleration_vector 5 9 [3; 4; 12])
  /\ calculate_gravitation_acceleration_earth 5 9 (scale 2 [3; 4; 12])
     = scale (/ 2 ^ 2)
             (calculate_gravitation_acceleration_earth 5 9 [3; 4; 12]).
Proof.
  assert (Hc : 0 < 2) by lra.
  assert (Hv : nonzero_vector [3; 4; 12]) by (left; lra).
  exact (conj Hc (conj Hv
           (@vector_formulas_inverse_square_scaling 5 9 2 [3; 4; 12] Hc Hv))).
Defined.

(** X5: the forces are linear in each mass: multiplying the first mass by
    [k] multiplies the scalar force and every component of the force
    vector by [k]. *)
Theorem force_linear_in_mass (k m_0 m_1 r : R) (v : list R) :
  calculate_gravitational_force (k * m_0) m_1 r
  = k * calculate_gravitational_force m_0 m_1 r
  /\ calculate_gravitational_force_vector (k * m_0) m_1 v
     = scale k (calculate_gravitational_force_vector m_0 m_1 v).
Proof.
  unfold calculate_gravitational_force, calculate_gravitational_force_vector.
  set (g := magnitude _). split.
  - real_ring.
  - rewrite !divide_scale, scale_scale. apply scale_ext. real_ring.
Qed.

(** X6: for positive masses and a nonzero separation vector the force is
    attractive: its dot product with [r] is [-G m_0 m_1 / |r|], which is
    negative. *)
Theorem force_vector_attractive (m_0 m_1 : R) (v : list R) :
  0 < m_0 -> 0 < m_1 -> nonzero_vector v ->
  dot (calculate_gravitational_force_vector m_0 m_1 v) v
  = - (magnitude GRAVITATIONAL_CONSTANT * m_0 * m_1) / norm v
  /\ dot (calculate_gravitational_force_vector m_0 m_1 v) v < 0.
Proof.
  intros H0 H1 Hv. pose proof (norm_pos Hv) as Hn.
  pose proof (norm_sqr_sum v) as Hsq. pose proof G_real_pos as HG.
  unfold calculate_gravitational_force_vector.
  rewrite divide_scale, dot_scale_self, <- Hsq.
  set (g := magnitude _) in *. set (n := norm v) in *. real_ops.
  assert (E : - g * m_0 * m_1 / n ^ 3 * n ^ 2 = - (g * m_0 * m_1) / n)
    by (field; lra).
  rewrite E. split; [ reflexivity | ].
  assert (Hk : 0 < g * m_0 * m_1).
  { apply Rmult_lt_0_compat; [ apply Rmult_lt_0_compat | ]; assumption. }
  pose proof (Rinv_0_lt_compat _ Hn) as Hinv.
  pose proof (Rmult_lt_0_compat _ _ Hk Hinv).
  unfold Rdiv. lra.
Qed.

Lemma force_vector_attractive_witness :
  0 < 5 /\ 0 < 9 /\ nonzero_vector [3; 4; 12]
  /\ dot (calculate_gravitational_force_vector 5 9 [3; 4; 12]) [3; 4; 12]
     = - (magnitude GRAVITATIONAL_CONSTANT * 5 * 9) / norm [3; 4; 12]
  /\ dot (calculate_gravitational_force_vector 5 9 [3; 4; 12]) [3; 4; 12]
     < 0.
Proof.
  assert (H0 : 0 < 5) by lra.
  assert (H1 : 0 < 9) by lra.
  assert (Hv : nonzero_vector [3; 4; 12]) by (left; lra).
  exact (conj H0 (conj H1 (conj Hv
           (@force_vector_attractive 5 9 [3; 4; 12] H0 H1 Hv)))).
Defined.

(** X7: the two accelerations follow the inverse-square law in size: at a
    nonzero separation the norm of the Earth approximation is
    [mu / |r|^2] and that of the two-body acceleration is
    [G |m_0 + m_1| / |r|^2]. *)
Theorem acceleration_magnitudes (m_0 m_1 : R) (v : list R) :
  nonzero_vector v ->
  norm (calculate_gravitation_acceleration_earth m_0 m_1 v)
  = magnitude EARTH_ACCEL_CONSTANT / norm v ^ 2
  /\ norm (calculate_gravitational_acceleration_vector m_0 m_1 v)
     = magnitude GRAVITATIONAL_CONSTANT * Rabs (m_0 + m_1) / norm v ^ 2.
Proof.
  intros Hv. pose proof (norm_pos Hv) as Hn.
  assert (shape : forall k : R,
             norm (divide (scale k v) (power (norm v) 3))
             = Rabs k / norm v ^ 2).
  { intros k. rewrite divide_scale, norm_scale.
    set (n := norm v) in *. real_ops.
    assert (Hn3 : 0 < n ^ 3) by (apply pow_lt; exact Hn).
    unfold Rdiv. rewrite Rabs_mult, (Rabs_pos_eq (/ n ^ 3))
      by (left; apply Rinv_0_lt_compat; exact Hn3).
    field. lra. }
  unfold calculate_gravitation_acceleration_earth,
         calculate_gravitational_acceleration_vector.
  rewrite !shape. split.
  - f_equal. pose proof MU_real_value as HMU.
    set (mu := magnitude _) in *. real_ops.
    rewrite Rabs_Ropp. apply Rabs_pos_eq. rewrite HMU. lra.
  - pose proof G_real_pos as HG. set (g := magnitude _) in *. real_ops.
    f_equal. rewrite Rabs_mult, Rabs_Ropp, (Rabs_pos_eq g) by lra.
    reflexivity.
Qed.

Lemma acceleration_magnitudes_witness :
  nonzero_vector [7000; 0; 0]
  /\ norm (calculate_gravitation_acceleration_earth 1 1 [7000; 0; 0])
     = magnitude EARTH_ACCEL_CONSTANT / norm [7000; 0; 0] ^ 2
  /\ norm (calculate_gravitational_acceleration_vector 1 1 [7000; 0; 0])
     = magnitude GRAVITATIONAL_CONSTANT * Rabs (1 + 1)
       / norm [7000; 0; 0] ^ 2.
Proof.
  assert (Hv : nonzero_vector [7000; 0; 0]) by (left; lra).
  exact (conj Hv (@acceleration_magnitudes 1 1 [7000; 0; 0] Hv)).
Defined.

(** X8: the vector form is the scalar form along the unit vector: for a
    nonzero separation vector [r], the force vector is [r] scaled by the
    scalar force at separation [|r|] divided by [|r|]. *)
Theorem force_vector_from_scalar (m_0 m_1 : R) (v : list R) :
  nonzero_vector v ->
  calculate_gravitational_force_vector m_0 m_1 v
  = scale (calculate_gravitational_force m_0 m_1 (norm v) / norm v) v.
Proof.
  intros Hv. pose proof (norm_pos Hv) as Hn.
  unfold calculate_gravitational_force_vector,
         calculate_gravitational_force, square.
  rewrite divide_scale. apply scale_ext.
  set (g := magnitude _). set (n := norm v) in *. real_ops. field. lra.
Qed.

Lemma force_vector_from_scalar_witness :
  nonzero_vector [3; 4; 12]
  /\ calculate_gravitational_force_vector 5 9 [3; 4; 12]
     = scale (calculate_gravitational_force 5 9 (norm [3; 4; 12])
              / norm [3; 4; 12]) [3; 4; 12].
Proof.
  assert (Hv : nonzero_vector [3; 4; 12]) by (left; lra).
  exact (conj Hv (@force_vector_from_scalar 5 9 [3; 4; 12] Hv)).
Defined.

End RealProperties.

(* ===================================================================== *)
(** ** In every number system *)
(* ===================================================================== *)

(** X18: the three vector formulas return an array of the length of the
    separation vector they are given, whatever that length (an empty
    array included) and whatever the number system. *)
Theorem vector_formulas_keep_length
        (T : Type) (num : Scalar T) (m_0 m_1 : T) (r : list T) :
  List.length (calculate_gravitational_force_vector m_0 m_1 r)
  = List.length r
  /\ List.length (calculate_gravitational_acceleration_vector m_0 m_1 r)
     = List.length r
  /\ List.length (calculate_gravitation_acceleration_earth m_0 m_1 r)
     = List.length r.
Proof.
  unfold calculate_gravitational_force_vector,
         calculate_gravitational_acceleration_vector,
         calculate_gravitation_acceleration_earth, divide, scale.
  now rewrite !length_map.
Qed.

(* ===================================================================== *)
(** ** Further properties of the formulas, in binary64 *)
(* ===================================================================== *)

Section Binary64Properties.

Local Open Scope float_scope.

Lemma SFopp_involutive (x : spec_float) : SFopp (SFopp x) = x.
Proof. destruct x; cbn; now rewrite ?negb_involutive. Qed.

Lemma opp_involutive (x : float) : - - x = x.
Proof.
  apply Prim2SF_inj. now rewrite !FloatAxioms.opp_spec, SFopp_involutive.
Qed.

Lemma SF64mul_opp_r (x y : spec_float) :
  SF64mul x (SFopp y) = SFopp (SF64mul x y).
Proof.
  unfold SF64mul.
  destruct x as [sx | sx | | sx mx ex], y as [sy | sy | | sy my ey]; cbn;
    try reflexivity;
    try (now destruct sx, sy).
  rewrite <- binary_round_aux_opp. now destruct sx, sy.
Qed.

Lemma mul_opp_r (x y : float) : x * - y = - (x * y).
Proof.
  apply Prim2SF_inj.
  now rewrite FloatAxioms.mul_spec, !FloatAxioms.opp_spec,
              SF64mul_opp_r, FloatAxioms.mul_spec.
Qed.

Lemma mul_opp_opp (x y : float) : - x * - y = x * y.
Proof. now rewrite opp_mul, mul_opp_r, opp_involutive. Qed.

(** *** Signs *)

Lemma binary_round_aux_sign (s : bool) (m e : Z) (l : location) :
  SF_sign_or_nan s (binary_round_aux prec emax s m e l).
Proof.
  unfold binary_round_aux.
  destruct (shr_fexp prec emax m e l) as [mrs' e'].
  destruct (shr_fexp prec emax _ e' loc_Exact) as [mrs'' e''].
  destruct (shr_m mrs''); try exact I; try reflexivity.
  destruct (Z.leb e'' (Z.sub emax prec)); reflexivity.
Qed.

Lemma SF64mul_sign (sx sy : bool) (x y : spec_float) :
  SF_sign_or_nan sx x -> SF_sign_or_nan sy y ->
  SF_sign_or_nan (xorb sx sy) (SF64mul x y).
Proof.
  unfold SF64mul.
  destruct x as [s | s | | s mx ex], y as [s' | s' | | s' my ey]; cbn;
    trivial; intros -> ->; trivial.
  apply binary_round_aux_sign.
Qed.

Lemma SF64div_sign (sx sy : bool) (x y : spec_float) :
  SF_sign_or_nan sx x -> SF_sign_or_nan sy y ->
  SF_sign_or_nan (xorb sx sy) (SF64div x y).
Proof.
  unfold SF64div.
  destruct x as [s | s | | s mx ex], y as [s' | s' | | s' my ey]; cbn;
    trivial; intros -> ->; trivial.
  destruct (SFdiv_core_binary prec emax (Z.pos mx) ex (Z.pos my) ey)
    as [[mz ez] lz].
  apply binary_round_aux_sign.
Qed.

Lemma SFopp_sign (s : bool) (x : spec_float) :
  SF_sign_or_nan s x -> SF_sign_or_nan (negb s) (SFopp x).
Proof. destruct x; cbn; trivial; now intros ->. Qed.

(** A square never carries the sign bit. *)
Lemma SF64mul_self_sign (x : spec_float) :
  SF_sign_or_nan false (SF64mul x x).
Proof.
  destruct x as [s | s | | s m e]; cbn; trivial;
    try (now destruct s).
  replace false with (xorb s s) by now destruct s.
  apply binary_round_aux_sign.
Qed.

Lemma positive_sign (x : float) :
  (0 <? x) = true -> SF_sign_or_nan false (Prim2SF x).
Proof.
  rewrite FloatAxioms.ltb_spec.
  change (Prim2SF 0) with (S754_zero false).
  destruct (Prim2SF x) as [s | s | | s m e]; cbn; trivial;
    destruct s; trivial; discriminate.
Qed.

Lemma sign_bit_not_positive (x : float) :
  SF_sign_or_nan true (Prim2SF x) -> (0 <? x) = false.
Proof.
  rewrite FloatAxioms.ltb_spec.
  change (Prim2SF 0) with (S754_zero false).
  destruct (Prim2SF x) as [s | s | | s m e]; cbn; trivial;
    now intros ->.
Qed.

Variable libm_pow : float -> float -> float.

(** X9 (binary64): whatever rounding, underflow or overflow occurs, the
    scalar force between two positive masses is never a positive number:
    it is negative, a zero, or a NaN. *)
Theorem force_never_positive (m_0 m_1 r : float) :
  (0 <? m_0) = true -> (0 <? m_1) = true ->
  (0 <? calculate_gravitational_force
          (num := Float_Scalar libm_pow) m_0 m_1 r) = false.
Proof.
  intros H0 H1. apply sign_bit_not_positive.
  unfold calculate_gravitational_force, square.
  cbn [neg mul div Float_Scalar].
  change (magnitude GRAVITATIONAL_CONSTANT) with 0x1.2589effed8accp-34.
  rewrite FloatAxioms.div_spec, !FloatAxioms.mul_spec, FloatAxioms.opp_spec.
  change true with (xorb true false).
  apply SF64div_sign; [ | apply SF64mul_self_sign ].
  change true with (xorb true false) at 1.
  apply SF64mul_sign; [ | now apply positive_sign ].
  change true with (xorb true false) at 1.
  apply SF64mul_sign; [ | now apply positive_sign ].
  exact I || reflexivity.
Qed.

(** X10 (binary64): the scalar force is exactly even in the separation:
    [r] and [-r] give the same bits. *)
Theorem force_even_binary64 (m_0 m_1 r : float) :
  calculate_gravitational_force (num := Float_Scalar libm_pow) m_0 m_1 (- r)
  = calculate_gravitational_force (num := Float_Scalar libm_pow) m_0 m_1 r.
Proof.
  unfold calculate_gravitational_force, square.
  cbn [neg mul div Float_Scalar]. now rewrite mul_opp_opp.
Qed.

Lemma dot_negate_fold (r : list float) : forall a : float,
  fold_left (fun acc xy => add (Scalar := Float_Scalar libm_pow) acc
                             (mul (Scalar := Float_Scalar libm_pow)
                                  (fst xy) (snd xy)))
            (combine (negate (num := Float_Scalar libm_pow) r)
                     (negate (num := Float_Scalar libm_pow) r)) a
  = fold_left (fun acc xy => add (Scalar := Float_Scalar libm_pow) acc
                               (mul (Scalar := Float_Scalar libm_pow)
                                    (fst xy) (snd xy)))
              (combine r r) a.
Proof.
  induction r as [|x r IH]; intros a; cbn; [ reflexivity | ].
  rewrite mul_opp_opp. apply IH.
Qed.

Lemma norm_negate_binary64 (r : list float) :
  norm (num := Float_Scalar libm_pow) (negate (num := Float_Scalar libm_pow) r)
  = norm (num := Float_Scalar libm_pow) r.
Proof. unfold norm, dot. now rewrite dot_negate_fold. Qed.

Lemma divide_scale_negate_binary64 (c p : float) (r : list float) :
  divide (num := Float_Scalar libm_pow)
         (scale (num := Float_Scalar libm_pow) c
                (negate (num := Float_Scalar libm_pow) r)) p
  = negate (num := Float_Scalar libm_pow)
           (divide (num := Float_Scalar libm_pow)
                   (scale (num := Float_Scalar libm_pow) c r) p).
Proof.
  unfold divide, scale, negate. rewrite !map_map. apply map_ext.
  intros x. cbn. now rewrite mul_opp_r, opp_div.
Qed.

(** X11 (binary64): the three vector formulas are exactly odd in the
    separation vector: reversing [r] flips the sign of every component
    and changes no other bit, whatever [pow] the C library provides. *)
Theorem vector_formulas_odd_binary64 (m_0 m_1 : float) (v : list float) :
  calculate_gravitational_force_vector
    (num := Float_Scalar libm_pow) m_0 m_1
    (negate (num := Float_Scalar libm_pow) v)
  = negate (num := Float_Scalar libm_pow)
           (calculate_gravitational_force_vector
              (num := Float_Scalar libm_pow) m_0 m_1 v)
  /\ calculate_gravitational_acceleration_vector
       (num := Float_Scalar libm_pow) m_0 m_1
       (negate (num := Float_Scalar libm_pow) v)
     = negate (num := Float_Scalar libm_pow)
              (calculate_gravitational_acceleration_vector
                 (num := Float_Scalar libm_pow) m_0 m_1 v)
  /\ calculate_gravitation_acceleration_earth
       (num := Float_Scalar libm_pow) m_0 m_1
       (negate (num := Float_Scalar libm_pow) v)
     = negate (num := Float_Scalar libm_pow)
              (calculate_gravitation_acceleration_earth
                 (num := Float_Scalar libm_pow) m_0 m_1 v).
Proof.
  unfold calculate_gravitational_force_vector,
         calculate_gravitational_acceleration_vector,
         calculate_gravitation_acceleration_earth.
  rewrite !norm_negate_binary64.
  repeat split; apply divide_scale_negate_binary64.
Qed.

(** *** NaN *)

Lemma SFcompare_refl (f : spec_float) :
  f <> S754_nan -> SFcompare f f = Some Eq.
Proof.
  destruct f as [s | s | | s m e]; cbn; intros Hf;
    try (now destruct s); try congruence.
  rewrite Z.compare_refl, Pos.compare_cont_refl. now destruct s.
Qed.

Lemma is_nan_spec (x : float) :
  is_nan x = true <-> Prim2SF x = S754_nan.
Proof.
  unfold is_nan. rewrite FloatAxioms.eqb_spec. unfold SFeqb. split.
  - intros Hx. destruct (Prim2SF x) as [s | s | | s m e] eqn:E; trivial;
      rewrite SFcompare_refl in Hx by discriminate; discriminate.
  - now intros ->.
Qed.

Lemma mul_nan_l (x y : float) : is_nan x = true -> is_nan (x * y) = true.
Proof.
  rewrite !is_nan_spec, FloatAxioms.mul_spec. now intros ->.
Qed.

Lemma mul_nan_r (x y : float) : is_nan y = true -> is_nan (x * y) = true.
Proof.
  rewrite !is_nan_spec, FloatAxioms.mul_spec. intros ->.
  now destruct (Prim2SF x).
Qed.

Lemma div_nan_l (x y : float) : is_nan x = true -> is_nan (x / y) = true.
Proof.
  rewrite !is_nan_spec, FloatAxioms.div_spec. now intros ->.
Qed.

Lemma add_nan (x y : float) :
  is_nan x = true \/ is_nan y = true -> is_nan (x + y) = true.
Proof.
  rewrite !is_nan_spec, FloatAxioms.add_spec. intros [-> | ->].
  - reflexivity.
  - now destruct (Prim2SF x).
Qed.

Lemma Forall_scaled_nan (c p : float) (r : list float) :
  is_nan c = true ->
  Forall (fun x => is_nan x = true)
         (divide (num := Float_Scalar libm_pow)
                 (scale (num := Float_Scalar libm_pow) c r) p).
Proof.
  intros Hc. unfold divide, scale. rewrite map_map.
  apply Forall_map, Forall_forall. intros x _. cbn.
  now apply div_nan_l, mul_nan_l.
Qed.

(** X12 (binary64): a NaN mass is never lost: if either mass is a NaN,
    the scalar force, every component of the force vector and every
    component of the two-body acceleration is a NaN. *)
Theorem nan_mass_propagates (m_0 m_1 r : float) (v : list float) :
  is_nan m_0 = true \/ is_nan m_1 = true ->
  is_nan (calculate_gravitational_force
            (num := Float_Scalar libm_pow) m_0 m_1 r) = true
  /\ Forall (fun x => is_nan x = true)
            (calculate_gravitational_force_vector
               (num := Float_Scalar libm_pow) m_0 m_1 v)
  /\ Forall (fun x => is_nan x = true)
            (calculate_gravitational_acceleration_vector
               (num := Float_Scalar libm_pow) m_0 m_1 v).
Proof.
  intros Hm.
  assert (Hc : is_nan (- magnitude (GRAVITATIONAL_CONSTANT
                                      (num := Float_Scalar libm_pow))
                       * m_0 * m_1) = true).
  { destruct Hm as [H0 | H1];
      [ now apply mul_nan_l, mul_nan_r | now apply mul_nan_r ]. }
  repeat split.
  - unfold calculate_gravitational_force. cbn [neg mul div Float_Scalar].
    now apply div_nan_l.
  - now apply Forall_scaled_nan.
  - apply Forall_scaled_nan. cbn [neg mul add Float_Scalar].
    now apply mul_nan_r, add_nan.
Qed.

End Binary64Properties.

Section Binary64PropertyWitnesses.

Local Open Scope float_scope.

(** Two masses of 2^-600: the product with [G] underflows. *)
Lemma force_never_positive_witness :
  (0 <? 0x1p-600) = true /\ (0 <? 0x1p-600) = true
  /\ (0 <? calculate_gravitational_force
             (num := Float_Scalar cube_pow) 0x1p-600 0x1p-600 1) = false.
Proof.
  assert (H0 : (0 <? 0x1p-600) = true) by reflexivity.
  exact (conj H0 (conj H0
           (@force_never_positive cube_pow 0x1p-600 0x1p-600 1 H0 H0))).
Defined.

Lemma nan_mass_propagates_witness :
  (is_nan nan = true \/ is_nan 9 = true)
  /\ is_nan (calculate_gravitational_force
               (num := Float_Scalar cube_pow) nan 9 2) = true
  /\ Forall (fun x => is_nan x = true)
            (calculate_gravitational_force_vector
               (num := Float_Scalar cube_pow) nan 9 [3; 4; 12])
  /\ Forall (fun x => is_nan x = true)
            (calculate_gravitational_acceleration_vector
               (num := Float_Scalar cube_pow) nan 9 [3; 4; 12]).
Proof.
  assert (Hm : is_nan nan = true \/ is_nan 9 = true) by (left; reflexivity).
  exact (conj Hm (@nan_mass_propagates cube_pow nan 9 2 [3; 4; 12] Hm)).
Defined.

End Binary64PropertyWitnesses.

(* ===================================================================== *)
(** ** The [Orbit] dataclass: every call of the constructor *)
(* ===================================================================== *)

Section OrbitProperties.

Variable V : Type.

Local Unset Implicit Arguments.

Implicit Types (s : slots V) (kw : list (string * option V)).
Implicit Types (args : list (option V)) (k p : string) (v d : option V).

Lemma unbound_cons p (b : option (option V)) s :
  unbound ((p, b) :: s)
  = match b with None => p :: unbound s | Some _ => unbound s end.
Proof. unfold unbound. cbn. now destruct b. Qed.

Lemma unbound_keys s k : In k (unbound s) -> In k (map fst s).
Proof.
  induction s as [ | [p b] s IH ]; [ easy | ].
  rewrite unbound_cons. destruct b; cbn; intuition.
Qed.

(** *** One keyword *)

Lemma bind_keyword_keys k v s s' :
  bind_keyword k v s = inr s' -> map fst s' = map fst s.
Proof.
  revert s'. induction s as [ | [q b] s IH ]; intros s' Hb; [ discriminate | ].
  cbn in Hb. destruct (String.eqb q k).
  - destruct b; [ discriminate | ]. now injection Hb as <-.
  - destruct (bind_keyword k v s) as [ e | s1 ]; [ discriminate | ].
    injection Hb as <-. cbn. f_equal. now apply IH.
Qed.

Lemma bind_keyword_bound k v s s' p :
  bind_keyword k v s = inr s' ->
  bound p s' = if String.eqb k p then v else bound p s.
Proof.
  revert s'. induction s as [ | [q b] s IH ]; intros s' Hb; [ discriminate | ].
  cbn in Hb. destruct (String.eqb_spec q k) as [-> | Hne].
  - destruct b; [ discriminate | ]. injection Hb as <-. cbn.
    now destruct (String.eqb k p).
  - destruct (bind_keyword k v s) as [ e | s1 ]; [ discriminate | ].
    injection Hb as <-. cbn. rewrite (IH s1 eq_refl).
    destruct (String.eqb_spec q p) as [-> | Hqp]; [ | reflexivity ].
    destruct (String.eqb_spec k p) as [-> | _]; [ congruence | reflexivity ].
Qed.

Lemma bind_keyword_was_unbound k v s s' :
  bind_keyword k v s = inr s' -> In k (unbound s).
Proof.
  revert s'. induction s as [ | [q b] s IH ]; intros s' Hb; [ discriminate | ].
  cbn in Hb. rewrite unbound_cons.
  destruct (String.eqb_spec q k) as [-> | Hne].
  - destruct b; [ discriminate | now left ].
  - destruct (bind_keyword k v s) as [ e | s1 ]; [ discriminate | ].
    specialize (IH s1 eq_refl). destruct b; [ exact IH | now right ].
Qed.

Lemma bind_keyword_unbound k v s s' p :
  NoDup (map fst s) ->
  bind_keyword k v s = inr s' ->
  In p (unbound s') <-> In p (unbound s) /\ p <> k.
Proof.
  revert s'. induction s as [ | [q b] s IH ]; intros s' Hnd Hb;
    [ discriminate | ].
  cbn in Hb. inversion Hnd as [ | ? ? Hq Hnd' ]; subst.
  destruct (String.eqb_spec q k) as [-> | Hne].
  - destruct b; [ discriminate | ]. injection Hb as <-.
    rewrite !unbound_cons. cbn. split.
    + intros Hp. split; [ now right | ].
      intros ->. apply Hq, unbound_keys, Hp.
    + intros [[<- | Hp] Hpk]; [ congruence | exact Hp ].
  - destruct (bind_keyword k v s) as [ e | s1 ]; [ discriminate | ].
    injection Hb as <-. specialize (IH s1 Hnd' eq_refl).
    rewrite !unbound_cons. destruct b; cbn; rewrite ?IH; intuition congruence.
Qed.

Lemma bind_keyword_ok k v s :
  NoDup (map fst s) -> In k (unbound s) ->
  exists s', bind_keyword k v s = inr s'.
Proof.
  induction s as [ | [q b] s IH ]; intros Hnd Hk; [ easy | ].
  inversion Hnd as [ | ? ? Hq Hnd' ]; subst.
  rewrite unbound_cons in Hk. cbn.
  destruct (String.eqb_spec q k) as [-> | Hne].
  - destruct b; [ | eexists; reflexivity ].
    exfalso. apply Hq, unbound_keys, Hk.
  - assert (Hk' : In k (unbound s)).
    { destruct b; [ exact Hk | ]. destruct Hk as [E | Hk]; [ congruence | exact Hk ]. }
    destruct (IH Hnd' Hk') as [s1 ->]. eexists; reflexivity.
Qed.


(** *** All the keywords *)

Lemma lookup_notin p kw d :
  ~ In p (map fst kw) -> lookup p kw d = d.
Proof.
  induction kw as [ | [k v] kw IH ]; cbn; intros Hp; [ reflexivity | ].
  destruct (String.eqb_spec k p) as [-> | _]; [ | apply IH ]; intuition.
Qed.

Lemma bind_keywords_keys kw s s' :
  bind_keywords kw s = inr s' -> map fst s' = map fst s.
Proof.
  revert s. induction kw as [ | [k v] kw IH ]; intros s Hb; cbn in Hb.
  - now injection Hb as <-.
  - destruct (bind_keyword k v s) as [ e | s1 ] eqn:E; [ discriminate | ].
    rewrite (IH s1 Hb). eapply bind_keyword_keys, E.
Qed.

Lemma bind_keywords_inr kw s s' :
  NoDup (map fst s) ->
  bind_keywords kw s = inr s' ->
  NoDup (map fst kw)
  /\ incl (map fst kw) (unbound s)
  /\ (forall p, bound p s' = lookup p kw (bound p s)).
Proof.
  revert s. induction kw as [ | [k v] kw IH ]; intros s Hnd Hb; cbn in Hb.
  - injection Hb as <-. repeat split; [ constructor | easy ].
  - destruct (bind_keyword k v s) as [ e | s1 ] eqn:E; [ discriminate | ].
    assert (Hnd1 : NoDup (map fst s1))
      by now rewrite (bind_keyword_keys _ _ _ _ E).
    destruct (IH s1 Hnd1 Hb) as (Hkw & Hincl & Hbound).
    assert (Hk : ~ In k (map fst kw)).
    { intros Hin. apply Hincl in Hin.
      apply (bind_keyword_unbound _ _ _ _ _ Hnd E) in Hin. now destruct Hin. }
    cbn. repeat split.
    + now constructor.
    + intros p [<- | Hp].
      * eapply bind_keyword_was_unbound, E.
      * apply Hincl in Hp. now apply (bind_keyword_unbound _ _ _ _ _ Hnd E) in Hp.
    + intros p. rewrite Hbound, (bind_keyword_bound _ _ _ _ _ E).
      destruct (String.eqb_spec k p) as [<- | _]; [ | reflexivity ].
      now apply lookup_notin.
Qed.

Lemma bind_keywords_ok kw s :
  NoDup (map fst s) ->
  NoDup (map fst kw) -> incl (map fst kw) (unbound s) ->
  exists s', bind_keywords kw s = inr s'.
Proof.
  revert s. induction kw as [ | [k v] kw IH ]; intros s Hnd Hkw Hincl; cbn.
  - eexists; reflexivity.
  - cbn in Hkw. inversion Hkw as [ | ? ? Hk Hkw' ]; subst.
    destruct (bind_keyword_ok k v s Hnd) as [s1 E];
      [ apply Hincl; now left | ].
    rewrite E. apply IH.
    + now rewrite (bind_keyword_keys _ _ _ _ E).
    + exact Hkw'.
    + intros p Hp. apply (bind_keyword_unbound _ _ _ _ _ Hnd E). split.
      * apply Hincl. now right.
      * intros ->. exact (Hk Hp).
Qed.


(** *** The positional arguments *)

Lemma keys_bind_positional (ps : list string) args :
  map fst (bind_positional ps args) = ps.
Proof.
  revert args. induction ps as [ | p ps IH ]; intros args; [ reflexivity | ].
  destruct args; cbn; now rewrite IH.
Qed.

Lemma unbound_bind_positional (ps : list string) args :
  unbound (bind_positional ps args) = skipn (List.length args) ps.
Proof.
  revert args. induction ps as [ | p ps IH ]; intros args.
  - now destruct args.
  - destruct args as [ | a args ]; cbn [bind_positional];
      rewrite unbound_cons, IH; reflexivity.
Qed.

Lemma bound_bind_positional (ps : list string) args (i : nat) p :
  NoDup ps -> nth_error ps i = Some p ->
  bound p (bind_positional ps args)
  = match nth_error args i with Some a => a | None => None end.
Proof.
  revert args i. induction ps as [ | q ps IH ]; intros args i Hnd Hi.
  - now destruct i.
  - inversion Hnd as [ | ? ? Hq Hnd' ]; subst.
    destruct i as [ | i ]; cbn in Hi.
    + injection Hi as ->. destruct args; cbn; now rewrite String.eqb_refl.
    + assert (Hne : q <> p).
      { intros ->. apply Hq. eapply nth_error_In, Hi. }
      apply String.eqb_neq in Hne.
      destruct args as [ | a args ]; cbn; rewrite Hne.
      * rewrite (IH [] i Hnd' Hi). now destruct i.
      * apply (IH args i Hnd' Hi).
Qed.

Lemma Orbit_fields_NoDup : NoDup Orbit_fields.
Proof.
  unfold Orbit_fields.
  repeat (constructor; [ cbn; intuition discriminate | ]). constructor.
Qed.

Lemma positional_not_keyword (ps : list string) (n i : nat) p :
  NoDup ps -> nth_error ps i = Some p -> (i < n)%nat ->
  ~ In p (skipn n ps).
Proof.
  intros Hnd Hi Hin Hp.
  destruct (In_nth_error _ _ Hp) as [j Hj].
  rewrite nth_error_skipn in Hj.
  assert (Hlt : (i < List.length ps)%nat)
    by (apply nth_error_Some; congruence).
  pose proof (proj1 (NoDup_nth_error ps) Hnd i (n + j)%nat Hlt) as E.
  rewrite Hi, Hj in E. specialize (E eq_refl).
  apply (PeanoNat.Nat.lt_irrefl i). rewrite E at 2.
  apply PeanoNat.Nat.lt_lt_add_r, Hin.
Qed.

(** *** The constructor *)

(** The whole behaviour of a successful call. *)
Lemma Orbit_init_spec args kw (o : Orbit V) :
  Orbit_init args kw = inr o <->
  (List.length args <= 6)%nat
  /\ NoDup (map fst kw)
  /\ incl (map fst kw) (skipn (List.length args) Orbit_fields)
  /\ o = {| alpha := argument 0 "alpha" args kw;
            eccen := argument 1 "eccen" args kw;
            incln := argument 2 "incln" args kw;
            omega := argument 3 "omega" args kw;
            perig := argument 4 "perig" args kw;
            tperi := argument 5 "tperi" args kw |}.
Proof.
  assert (Hkeys : NoDup (map fst (bind_positional (V := V) Orbit_fields args)))
    by (rewrite keys_bind_positional; apply Orbit_fields_NoDup).
  assert (field : forall s' (i : nat) p,
             bind_keywords kw (bind_positional Orbit_fields args) = inr s' ->
             nth_error Orbit_fields i = Some p ->
             bound p s' = argument i p args kw).
  { intros s' i p Hb Hi.
    destruct (bind_keywords_inr _ _ _ Hkeys Hb) as (_ & Hincl & Hbound).
    rewrite Hbound, (bound_bind_positional _ _ _ _ Orbit_fields_NoDup Hi).
    unfold argument. destruct (nth_error args i) as [ a | ] eqn:Ea;
      [ | reflexivity ].
    apply lookup_notin. intros Hp. apply Hincl in Hp.
    rewrite unbound_bind_positional in Hp.
    apply (positional_not_keyword _ (List.length args) _ _
                                  Orbit_fields_NoDup Hi); [ | exact Hp ].
    apply nth_error_Some. congruence. }
  unfold Orbit_init. split.
  - destruct (bind_keywords kw _) as [ e | s' ] eqn:Hb; [ discriminate | ].
    destruct (PeanoNat.Nat.ltb_spec (List.length (Orbit_fields))
                                    (List.length args)) as [Hlt | Hle];
      [ discriminate | ].
    intros Ho. injection Ho as <-.
    destruct (bind_keywords_inr _ _ _ Hkeys Hb) as (Hnd & Hincl & _).
    rewrite unbound_bind_positional in Hincl.
    repeat split; try assumption.
    f_equal; apply field; reflexivity.
  - intros (Hlen & Hnd & Hincl & ->).
    destruct (bind_keywords_ok kw (bind_positional Orbit_fields args))
      as [s' Hb]; try assumption.
    { now rewrite unbound_bind_positional. }
    rewrite Hb.
    destruct (PeanoNat.Nat.ltb_spec (List.length (Orbit_fields))
                                    (List.length args)) as [Hlt | Hle].
    { exfalso. cbn in Hlt. apply (PeanoNat.Nat.lt_irrefl 6).
      eapply PeanoNat.Nat.lt_le_trans; eassumption. }
    f_equal. f_equal; apply field; first [ exact Hb | reflexivity ].
Qed.

(** X13: a call of the constructor succeeds exactly when there are at
    most six positional arguments, no keyword is repeated, and every
    keyword names a field that no positional argument has filled. *)
Theorem Orbit_init_succeeds_iff args kw :
  (exists o, Orbit_init args kw = inr o) <->
  (List.length args <= 6)%nat
  /\ NoDup (map fst kw)
  /\ incl (map fst kw) (skipn (List.length args) Orbit_fields).
Proof.
  split.
  - intros [o Ho]. apply Orbit_init_spec in Ho. tauto.
  - intros (Hlen & Hnd & Hincl). eexists. apply Orbit_init_spec.
    repeat split; try eassumption.
Qed.

(** X14: when the call succeeds, each field holds the positional argument
    of its position when there is one, else the value of the keyword of
    its name, else [None]. *)
Theorem Orbit_init_fields args kw (o : Orbit V) :
  Orbit_init args kw = inr o ->
  alpha o = argument 0 "alpha" args kw
  /\ eccen o = argument 1 "eccen" args kw
  /\ incln o = argument 2 "incln" args kw
  /\ omega o = argument 3 "omega" args kw
  /\ perig o = argument 4 "perig" args kw
  /\ tperi o = argument 5 "tperi" args kw.
Proof.
  intros Ho. apply Orbit_init_spec in Ho.
  destruct Ho as (_ & _ & _ & ->). repeat split.
Qed.

Lemma lookup_Permutation p kw kw' d :
  Permutation kw kw' -> NoDup (map fst kw) ->
  lookup p kw d = lookup p kw' d.
Proof.
  induction 1 as [ | [k v] kw kw' HP IH | [k1 v1] [k2 v2] kw
                   | kw kw1 kw2 HP1 IH1 HP2 IH2 ]; intros Hnd.
  - reflexivity.
  - cbn in *. inversion Hnd; subst. now rewrite IH.
  - cbn in *. inversion Hnd as [ | ? ? Hk ]; subst.
    destruct (String.eqb_spec k1 p) as [-> | _],
             (String.eqb_spec k2 p) as [-> | _]; try reflexivity.
    exfalso. apply Hk. now left.
  - rewrite IH1 by assumption. apply IH2.
    eapply Permutation_NoDup; [ | exact Hnd ]. now apply Permutation_map.
Qed.

(** X15: the order in which the keywords are written does not matter: a
    successful call gives the same record under any reordering of its
    keyword arguments. *)
Theorem Orbit_init_keyword_order args kw kw' (o : Orbit V) :
  Permutation kw kw' ->
  Orbit_init args kw = inr o ->
  Orbit_init args kw' = inr o.
Proof.
  intros HP Ho. apply Orbit_init_spec in Ho.
  destruct Ho as (Hlen & Hnd & Hincl & ->).
  assert (HPk : Permutation (map fst kw) (map fst kw'))
    by now apply Permutation_map.
  apply Orbit_init_spec. repeat split.
  - exact Hlen.
  - eapply Permutation_NoDup; eassumption.
  - intros k Hk. apply Hincl. eapply Permutation_in; [ | exact Hk ].
    now apply Permutation_sym.
  - unfold argument.
    now rewrite !(lookup_Permutation _ kw kw' None HP Hnd).
Qed.


(** X17: round trip: building an [Orbit] from the six fields of a record,
    passed in declaration order or by keyword, gives the record back. *)
Theorem Orbit_init_round_trip (o : Orbit V) :
  Orbit_init [alpha o; eccen o; incln o; omega o; perig o; tperi o] []
  = inr o
  /\ Orbit_init []
       [("alpha"%string, alpha o); ("eccen"%string, eccen o);
        ("incln"%string, incln o); ("omega"%string, omega o);
        ("perig"%string, perig o); ("tperi"%string, tperi o)]
     = inr o.
Proof. destruct o. split; reflexivity. Qed.

End OrbitProperties.

Lemma Orbit_init_fields_witness :
  Orbit_init [Some 7%nat] [("tperi"%string, Some 9%nat)]
  = inr {| alpha := Some 7%nat; eccen := None; incln := None;
           omega := None; perig := None; tperi := Some 9%nat |}
  /\ Some 7%nat = argument 0 "alpha" [Some 7%nat]
                            [("tperi"%string, Some 9%nat)]
  /\ None = argument 1 "eccen" [Some 7%nat] [("tperi"%string, Some 9%nat)]
  /\ None = argument 2 "incln" [Some 7%nat] [("tperi"%string, Some 9%nat)]
  /\ None = argument 3 "omega" [Some 7%nat] [("tperi"%string, Some 9%nat)]
  /\ None = argument 4 "perig" [Some 7%nat] [("tperi"%string, Some 9%nat)]
  /\ Some 9%nat = argument 5 "tperi" [Some 7%nat]
                            [("tperi"%string, Some 9%nat)].
Proof.
  assert (Ho : Orbit_init [Some 7%nat] [("tperi"%string, Some 9%nat)]
               = inr {| alpha := Some 7%nat; eccen := None; incln := None;
                        omega := None; perig := None; tperi := Some 9%nat |})
    by reflexivity.
  exact (conj Ho (Orbit_init_fields nat _ _ _ Ho)).
Defined.

Lemma Orbit_init_keyword_order_witness :
  Permutation [("eccen"%string, Some 1%nat); ("alpha"%string, Some 2%nat)]
              [("alpha"%string, Some 2%nat); ("eccen"%string, Some 1%nat)]
  /\ Orbit_init [] [("eccen"%string, Some 1%nat); ("alpha"%string, Some 2%nat)]
     = inr {| alpha := Some 2%nat; eccen := Some 1%nat; incln := None;
              omega := None; perig := None; tperi := None |}
  /\ Orbit_init [] [("alpha"%string, Some 2%nat); ("eccen"%string, Some 1%nat)]
     = inr {| alpha := Some 2%nat; eccen := Some 1%nat; incln := None;
              omega := None; perig := None; tperi := None |}.
Proof.
  assert (HP : Permutation
                 [("eccen"%string, Some 1%nat); ("alpha"%string, Some 2%nat)]
                 [("alpha"%string, Some 2%nat); ("eccen"%string, Some 1%nat)])
    by apply perm_swap.
  assert (Ho : Orbit_init [] [("eccen"%string, Some 1%nat);
                              ("alpha"%string, Some 2%nat)]
               = inr {| alpha := Some 2%nat; eccen := Some 1%nat;
                        incln := None; omega := None; perig := None;
                        tperi := None |})
    by reflexivity.
  exact (conj HP (conj Ho (Orbit_init_keyword_order nat _ _ _ _ HP Ho))).
Defined.

